(** * Form-state hook and public layout: a shallow embedding

    The development follows [src/utils/form.ts] (the [useAppForm] hook and
    its helpers) and [src/layout/PublicLayout.tsx] (navigation item lists
    and the drawer callbacks).  JavaScript values are an inductive type,
    plain objects are finite maps from property names to values, and a
    call that can throw returns a [Result]. *)

From stdpp Require Import gmap strings list fin_maps pretty.

Local Open Scope string_scope.
Set Warnings "-register-all".

(** ** JavaScript values *)

Module Js.

(** The values that flow through the form code.  Numbers are kept to the
    integers and [NaN]: the code only tests them for truthiness and asks
    for their [typeof].  Strings are ASCII text.  An object is the finite
    map of its own properties: the order in which an object lists its keys
    is not part of the model, and no result below is about that order. *)
Inductive JsVal : Type :=
| JUndefined
| JNull
| JBool (b : bool)
| JNum (z : Z)
| JNaN
| JStr (s : string)
| JArr (items : list JsVal)
| JObj (props : gmap string JsVal)
| JFun (name : string).

(** What a call produces: a value, or a thrown error. *)
Inductive JsError : Type :=
| Error (message : string)
| TypeError.

Inductive Result (A : Type) : Type :=
| Ok (a : A)
| Throw (e : JsError).
Arguments Ok {A} a.
Arguments Throw {A} e.

#[global] Instance result_ret : MRet Result := λ A a, Ok a.
#[global] Instance result_bind : MBind Result := λ A B k r,
  match r with
  | Ok a => k a
  | Throw e => Throw e
  end.

(** [typeof v]. *)
Definition typeof (v : JsVal) : string :=
  match v with
  | JUndefined => "undefined"
  | JNull => "object"
  | JBool _ => "boolean"
  | JNum _ | JNaN => "number"
  | JStr _ => "string"
  | JArr _ | JObj _ => "object"
  | JFun _ => "function"
  end.

(** [Boolean(v)], the test behind [!v], [a && b], [a || b] and [c ? a : b]. *)
Definition truthy (v : JsVal) : bool :=
  match v with
  | JUndefined | JNull | JNaN => false
  | JBool b => b
  | JNum z => negb (z =? 0)%Z
  | JStr s => negb (String.eqb s "")
  | JArr _ | JObj _ | JFun _ => true
  end.

(** [v === undefined || v === null], the test behind [?.] and [??]. *)
Definition nullish (v : JsVal) : bool :=
  match v with
  | JUndefined | JNull => true
  | _ => false
  end.

(** [a || b] on operands already evaluated. *)
Definition js_or (a b : JsVal) : JsVal := if truthy a then a else b.
(** [a ?? b]. *)
Definition js_coalesce (a b : JsVal) : JsVal := if nullish a then b else a.

(** The characters of a string, each as a one-character string; for the
    ASCII text of the model a character is one UTF-16 unit. *)
Fixpoint chars (s : string) : list JsVal :=
  match s with
  | EmptyString => []
  | String c rest => JStr (String c EmptyString) :: chars rest
  end.

(** The entries [i ↦ items[i]], keyed by the decimal spelling of [i]. *)
Definition indexed (items : list JsVal) : gmap string JsVal :=
  list_to_map (imap (λ i v, (pretty i, v)) items).

(** The own enumerable string-keyed properties of a value: what an object
    spread [{...v}] copies and what [Object.keys(v)] lists.  Spreading
    [undefined], [null], a boolean, a number or a function copies nothing. *)
Definition own_enumerable (v : JsVal) : gmap string JsVal :=
  match v with
  | JObj props => props
  | JArr items => indexed items
  | JStr s => indexed (chars s)
  | _ => ∅
  end.

(** [Object.keys(v).length]; [Object.keys] throws on [undefined] and on
    [null]. *)
Definition keys_length (v : JsVal) : Result nat :=
  if nullish v then Throw TypeError else Ok (size (own_enumerable v)).

(** The names every object inherits from [Object.prototype]. *)
Definition object_prototype_keys : list string :=
  [ "constructor"; "hasOwnProperty"; "isPrototypeOf"; "propertyIsEnumerable";
    "toLocaleString"; "toString"; "valueOf"; "__proto__";
    "__defineGetter__"; "__defineSetter__"; "__lookupGetter__";
    "__lookupSetter__" ].

Definition inherited (k : string) : JsVal :=
  if bool_decide (k ∈ object_prototype_keys) then JFun k else JUndefined.

(** [v[k]] for a plain object: the own property when there is one, what
    [Object.prototype] provides otherwise.  Reading from [undefined] or
    [null] throws.  For arrays, strings and functions the own indexed
    entries are found as well; the further members of their own
    prototypes ([length], [map], ...) are not listed, and no result below
    reads a named property from such a value. *)
Definition get_prop (v : JsVal) (k : string) : Result JsVal :=
  if nullish v then Throw TypeError
  else Ok (default (inherited k) (own_enumerable v !! k)).

(** [v?.[i]] for an index [i]. *)
Definition opt_index (v : JsVal) (i : nat) : JsVal :=
  match v with
  | JArr items => default JUndefined (items !! i)
  | JStr s => default JUndefined (chars s !! i)
  | JObj props => default JUndefined (props !! pretty i)
  | _ => JUndefined
  end.

End Js.
Import Js.

(** ** The form-state hook, [src/utils/form.ts] *)

Module Form.

(** [interface FormState]: the run-time object with its three
    properties.  [touched] and [errors] are optional in the interface, so
    each property holds any value, [undefined] included. *)
Record FormState : Type := mkFormState {
  values : JsVal;
  touched : JsVal;
  errors : JsVal;
}.

Definition DEFAULT_FORM_STATE : FormState :=
  {| values := JObj ∅; touched := JObj ∅; errors := JObj ∅ |}.

(** [Boolean(formState.touched[fieldName] && formState.errors[fieldName])]:
    the right operand is read only when the left one is truthy. *)
Definition formHasError (formState : FormState) (fieldName : string) : Result bool :=
  t ← get_prop (touched formState) fieldName;
  if truthy t
  then e ← get_prop (errors formState) fieldName; mret (truthy e)
  else mret (truthy t).

(** [formHasError(formState, fieldName) ? formState.errors[fieldName]?.[0] : null] *)
Definition formGetError (formState : FormState) (fieldName : string) : Result JsVal :=
  has ← formHasError formState fieldName;
  if has : bool
  then e ← get_prop (errors formState) fieldName; mret (opt_index e 0)
  else mret JNull.

(** [interface UseAppFormParams]; a property left out reads as [undefined]. *)
Record UseAppFormParams : Type := mkParams {
  validationSchema : JsVal;
  initialValues : JsVal;
}.

(** The part of [ChangeEvent<HTMLInputElement>] the handler reads.  The
    handler uses [event.target?.], so the target may be absent, and the
    control may have no [name]. *)
Record Target : Type := mkTarget {
  name : option string;
  type : string;
  checked : bool;
  value : string;
}.

Record ChangeEvent : Type := mkEvent { target : option Target }.

(** A state update handed to [setFormState]: React applies it to the
    state current when the update is processed. *)
Definition Updater : Type := FormState → FormState.

(** The property key a computed key [[name]] denotes for a name that is a
    string or [undefined]. *)
Definition property_key (name : option string) : string := default "undefined" name.

(** [optional inj (f <$> o)] is the value of [o?.f]: [undefined] when [o]
    is absent. *)
Definition optional {A} (inj : A → JsVal) (o : option A) : JsVal :=
  from_option inj JUndefined o.

(** The body of [onFieldChange], lines 106-124. *)
Definition onFieldChange (event : ChangeEvent) : Updater :=
  let name := target event ≫= name in
  let value :=
    if bool_decide (type <$> target event = Some "checkbox")
    then optional JBool (checked <$> target event)
    else optional JStr (value <$> target event) in
  λ formState,
    {| values := JObj (<[property_key name := value]> (own_enumerable (values formState)));
       touched := JObj (<[property_key name := JBool true]> (own_enumerable (touched formState)));
       errors := errors formState |}.

(** [Object.keys(formState?.errors ?? {}).length < 1] *)
Definition isFormValid (formState : FormState) : Result bool :=
  n ← keys_length (js_coalesce (errors formState) (JObj ∅)); mret (n <? 1)%nat.

(** [Object.keys(formState?.touched ?? {}).length > 0] *)
Definition isFormTouched (formState : FormState) : Result bool :=
  n ← keys_length (js_coalesce (touched formState) (JObj ∅)); mret (0 <? n)%nat.

(** What [useAppForm] returns. *)
Record UseAppFormReturn : Type := mkReturn {
  formState : FormState;
  setFormState : FormState → Updater;
  onFieldChange' : ChangeEvent → Updater;
  fieldGetError : string → Result JsVal;
  fieldHasError : string → Result bool;
  isFormValid' : Result bool;
  isFormTouched' : Result bool;
}.

(** [useState(initial)]: the stored state, or [initial] on the first render. *)
Definition useState (cell : option FormState) (initial : FormState) : FormState :=
  default initial cell.

(** One render of [useAppForm]; [cell] is the state React keeps for the
    component, [None] before the first render.  The effect it registers is
    [validationEffect] below. *)
Definition useAppForm (params : UseAppFormParams) (cell : option FormState)
  : Result UseAppFormReturn :=
  let validationSchema := validationSchema params in
  let initialValues :=
    match initialValues params with
    | JUndefined => JObj ∅
    | v => v
    end in
  if negb (truthy validationSchema)
  then Throw (Error "useAppForm() - the option `validationSchema` is required")
  else if negb (String.eqb (typeof validationSchema) "object")
  then Throw (Error "useAppForm() - the option `validationSchema` should be an object")
  else if negb (String.eqb (typeof initialValues) "object")
  then Throw (Error "useAppForm() - the option `initialValues` should be an object")
  else
    let formState :=
      useState cell {| values := initialValues;
                       touched := touched DEFAULT_FORM_STATE;
                       errors := errors DEFAULT_FORM_STATE |} in
    Ok {| formState := formState;
          setFormState := λ next _, next;
          onFieldChange' := onFieldChange;
          fieldGetError := formGetError formState;
          fieldHasError := formHasError formState;
          isFormValid' := isFormValid formState;
          isFormTouched' := isFormTouched formState |}.

(** The parameter pattern of line 81, [{ validationSchema, initialValues }],
    applied to the argument of a call: destructuring [undefined] or
    [null] throws, and a property the argument lacks reads as
    [undefined]. *)
Definition destructure (arg : JsVal) : Result UseAppFormParams :=
  validationSchema ← get_prop arg "validationSchema";
  initialValues ← get_prop arg "initialValues";
  mret {| validationSchema := validationSchema; initialValues := initialValues |}.

(** A call [useAppForm(arg)] on a render. *)
Definition useAppFormCall (arg : JsVal) (cell : option FormState)
  : Result UseAppFormReturn :=
  params ← destructure arg; useAppForm params cell.

Section Hook.

(** [validate] from the library validate.js: attributes and constraints in,
    [undefined] or an object of message lists out. *)
Variable validate : JsVal → JsVal → JsVal.

(** The effect of lines 97-103, run for the rendered [formState]: it
    validates the rendered values and hands [setFormState] an updater. *)
Definition validationEffect (validationSchema : JsVal) (formState : FormState) : Updater :=
  let errors := validate (values formState) validationSchema in
  λ currentFormState,
    {| values := values currentFormState;
       touched := touched currentFormState;
       errors := js_or errors (JObj ∅) |}.

(** *** The hook at run time

    React keeps the state between renders and runs the effect after a
    commit whose [formState.values] is a new object. *)
Record Hook : Type := mkHook {
  state : FormState;
  effectDue : bool;
}.

(** First render: the state is created and the effect is scheduled. *)
Definition mount (params : UseAppFormParams) : Result Hook :=
  r ← useAppForm params None;
  mret {| state := formState r; effectDue := true |}.

(** What happens to a mounted hook. *)
Inductive Op : Type :=
| Change (event : ChangeEvent)
| Revalidate.

(** The revalidation step: the effect of the committed state, applied to it. *)
Definition revalidate (validationSchema : JsVal) (st : FormState) : FormState :=
  validationEffect validationSchema st st.

Definition apply_op (validationSchema : JsVal) (st : FormState) (op : Op) : FormState :=
  match op with
  | Change event => onFieldChange event st
  | Revalidate => revalidate validationSchema st
  end.

Definition run (validationSchema : JsVal) (ops : list Op) (st : FormState) : FormState :=
  foldl (apply_op validationSchema) st ops.

(** A change builds a new [values] object, so the effect becomes due;
    running the effect keeps [values] as it is, so nothing more is due. *)
Definition dispatch (event : ChangeEvent) (h : Hook) : Hook :=
  {| state := onFieldChange event (state h); effectDue := true |}.

Definition flushEffect (validationSchema : JsVal) (h : Hook) : Hook :=
  if effectDue h
  then {| state := revalidate validationSchema (state h); effectDue := false |}
  else h.

(** One step of a mounted hook. *)
Definition hook_step (validationSchema : JsVal) (h : Hook) (op : Op) : Hook :=
  match op with
  | Change event => dispatch event h
  | Revalidate => flushEffect validationSchema h
  end.

(** With no effect due, the errors are those of the current values. *)
Definition settled (validationSchema : JsVal) (h : Hook) : Prop :=
  effectDue h = false →
  own_enumerable (errors (state h))
  = own_enumerable (validate (values (state h)) validationSchema).

End Hook.

(** *** The words of the specification *)

(** A structured object: an object or an array, not [null]. *)
Definition structured_object (v : JsVal) : bool :=
  match v with
  | JObj _ | JArr _ => true
  | _ => false
  end.

(** An argument that was left out. *)
Definition missing (v : JsVal) : bool :=
  match v with
  | JUndefined => true
  | _ => false
  end.

(** The own entry of field [f] in a mapping of the state. *)
Definition entry (mapping : JsVal) (f : string) : option JsVal :=
  own_enumerable mapping !! f.

(** The field's entry is there and truthy. *)
Definition entry_set (mapping : JsVal) (f : string) : bool :=
  from_option truthy false (entry mapping f).

(** A plain object, as an object literal builds it. *)
Definition plain_object (v : JsVal) : bool :=
  match v with
  | JObj _ => true
  | _ => false
  end.

(** A non-empty error entry exists for the field: a list with at least
    one message. *)
Definition non_empty_error_entry (st : FormState) (f : string) : bool :=
  match entry (errors st) f with
  | Some (JArr (_ :: _)) => true
  | _ => false
  end.

(** "Has error" in the words of the specification: touched, and a
    non-empty error entry exists. *)
Definition touched_with_non_empty_entry (st : FormState) (f : string) : bool :=
  entry_set (touched st) f && non_empty_error_entry st f.

(** The constructor arguments that the specification says are refused. *)
Definition refused (params : UseAppFormParams) : bool :=
  negb (structured_object (validationSchema params))
  || negb (missing (initialValues params))
     && negb (structured_object (initialValues params)).

(** What validate.js documents as its result: nothing when no rule is
    violated ([undefined]; [null] is taken the same way), and otherwise an
    object with at least one field. *)
Definition validate_result (r : JsVal) : bool :=
  match r with
  | JUndefined | JNull => true
  | JObj props => (0 <? size props)%nat
  | _ => false
  end.

(** "Get error" in the words of the specification: the first message of
    the field's list when the field has an error, [null] otherwise. *)
Definition documented_error (st : FormState) (f : string) : JsVal :=
  if touched_with_non_empty_entry st f
  then match entry (errors st) f with
       | Some (JArr (message :: _)) => message
       | _ => JNull
       end
  else JNull.

(** An [errors] mapping as the data model has it: an object whose every
    entry is a list with at least one message. *)
Definition message_list (v : JsVal) : Prop :=
  ∃ message rest, v = JArr (message :: rest).

Definition well_formed_errors (v : JsVal) : Prop :=
  ∃ props, v = JObj props ∧ ∀ f e, props !! f = Some e → message_list e.

(** A touched field whose error entry is an empty list. *)
Definition EMPTY_ENTRY_STATE : FormState :=
  {| values := JObj ∅;
     touched := JObj {[ "email" := JBool true ]};
     errors := JObj {[ "email" := JArr [] ]} |}.

(** A sample validator for the examples.  Of the rules of validate.js it
    knows [presence], as version 0.13 applies it to a field whose name is
    a lowercase word: [presence: true] asks for a value that is not
    [undefined] or [null]; [presence: { allowEmpty: false }] refuses empty
    values as well; the message is the capitalised field name followed by
    ["can't be blank"], and the result is [undefined] when no field
    fails.  The rule's other options are not read. *)
Fixpoint all_space (s : string) : bool :=
  match s with
  | EmptyString => true
  | String c rest =>
      let n := Ascii.nat_of_ascii c in
      ((n =? 32) || (9 <=? n) && (n <=? 13))%nat && all_space rest
  end.

(** [v.isDefined(value)] *)
Definition is_defined (v : option JsVal) : bool :=
  match v with
  | None | Some JUndefined | Some JNull => false
  | _ => true
  end.

(** [v.isEmpty(value)] *)
Definition is_empty (v : option JsVal) : bool :=
  match v with
  | None | Some JUndefined | Some JNull => true
  | Some (JStr s) => all_space s
  | Some (JArr items) => (length items =? 0)%nat
  | Some (JObj props) => (size props =? 0)%nat
  | _ => false
  end.

(** The [presence] validator with the options the schema gives it. *)
Definition presence_fails (options : JsVal) (v : option JsVal) : bool :=
  match entry options "allowEmpty" with
  | Some (JBool false) => is_empty v
  | _ => negb (is_defined v)
  end.

Definition capitalize (s : string) : string :=
  match s with
  | EmptyString => EmptyString
  | String c rest =>
      let n := Ascii.nat_of_ascii c in
      String (if ((97 <=? n) && (n <=? 122))%nat then Ascii.ascii_of_nat (n - 32) else c) rest
  end.

Definition validate_presence (attributes schema : JsVal) : JsVal :=
  let failed :=
    map_imap (λ field constraints,
      match entry constraints "presence" with
      | Some options =>
          if truthy options && presence_fails options (entry attributes field)
          then Some (JArr [JStr (capitalize field +:+ " can't be blank")])
          else None
      | None => None
      end) (own_enumerable schema) in
  if decide (size failed = 0) then JUndefined else JObj failed.

(** A sign-up form for the examples: the e-mail address is required. *)
Definition SIGNUP_SCHEMA : JsVal :=
  JObj {[ "email" := JObj {[ "presence" := JObj {[ "allowEmpty" := JBool false ]} ]} ]}.

Definition SIGNUP_PARAMS : UseAppFormParams :=
  {| validationSchema := SIGNUP_SCHEMA; initialValues := JUndefined |}.

Definition SIGNUP_MOUNTED : Hook :=
  {| state := DEFAULT_FORM_STATE; effectDue := true |}.

(** The form once an address has been typed into the field that a
    revalidation had found empty: the errors are those of the empty
    field still. *)
Definition SIGNUP_ENTERED : FormState :=
  {| values := JObj {[ "email" := JStr "x" ]};
     touched := JObj {[ "email" := JBool true ]};
     errors := JObj {[ "email" := JArr [JStr "Email can't be blank"] ]} |}.

Definition text_change (field text : string) : ChangeEvent :=
  {| target := Some {| name := Some field; type := "text";
                       checked := false; value := text |} |}.

(** *** Reading a sequence of operations *)

(** The key and the value a change event binds, as [onFieldChange]
    computes them on lines 107-111. *)
Definition event_key (event : ChangeEvent) : string :=
  property_key (target event ≫= name).

Definition event_value (event : ChangeEvent) : JsVal :=
  if bool_decide (type <$> target event = Some "checkbox")
  then optional JBool (checked <$> target event)
  else optional JStr (value <$> target event).

(** The change events of a sequence, the revalidation steps left out. *)
Fixpoint changes_only (ops : list Op) : list Op :=
  match ops with
  | [] => []
  | Change event :: rest => Change event :: changes_only rest
  | Revalidate :: rest => changes_only rest
  end.

(** The keys the change events of a sequence bind. *)
Fixpoint changed_fields (ops : list Op) : list string :=
  match ops with
  | [] => []
  | Change event :: rest => event_key event :: changed_fields rest
  | Revalidate :: rest => changed_fields rest
  end.

(** The value the last change event for [f] binds, if there is one. *)
Fixpoint last_change (ops : list Op) (f : string) : option JsVal :=
  match ops with
  | [] => None
  | op :: rest =>
      match last_change rest f with
      | Some v => Some v
      | None =>
          match op with
          | Change event =>
              if decide (event_key event = f) then Some (event_value event) else None
          | Revalidate => None
          end
      end
  end.

End Form.
Import Form.

(** ** The public layout, [src/layout/PublicLayout.tsx] *)

Module Layout.

(** [LinkToPage] as the item lists use it. *)
Record LinkToPage : Type := mkLink {
  title : string;
  path : string;
  icon : string;
}.

Definition LOG_IN : LinkToPage :=
  {| title := "Log In"; path := "/auth/login"; icon := "login" |}.
Definition SIGN_UP : LinkToPage :=
  {| title := "Sign Up"; path := "/auth/signup"; icon := "signup" |}.
Definition ABOUT : LinkToPage :=
  {| title := "About"; path := "/about"; icon := "info" |}.
Definition DEBUG_TOOLS : LinkToPage :=
  {| title := "[Debug Tools]"; path := "/dev"; icon := "settings" |}.

(** [items.push(item)] *)
Definition push (items : list LinkToPage) (item : LinkToPage) : list LinkToPage :=
  items ++ [item].

(** The two module-level constants once the module has been evaluated. *)
Record NavItems : Type := mkNavItems {
  SIDE_BAR_ITEMS : list LinkToPage;
  BOTTOM_BAR_ITEMS : list LinkToPage;
}.

(** Module evaluation, lines 19-64.  [REACT_APP_DEBUG] is the value of
    [process.env.REACT_APP_DEBUG], [None] when the variable is not set. *)
Definition evaluate (REACT_APP_DEBUG : option string) : NavItems :=
  let side := [LOG_IN; SIGN_UP; ABOUT] in
  let side :=
    if bool_decide (REACT_APP_DEBUG = Some "true")
    then push side DEBUG_TOOLS
    else side in
  let bottom := [LOG_IN; SIGN_UP; ABOUT] in
  {| SIDE_BAR_ITEMS := side; BOTTOM_BAR_ITEMS := bottom |}.

(** The drawer: the [sideBarVisible] state of the component, with a count
    of the [setSideBarVisible] calls made so far. *)
Record Drawer : Type := mkDrawer {
  sideBarVisible : bool;
  updates : nat;
}.

(** The callbacks of lines 88-94 for a render that saw [sideBarVisible]:
    the argument of the [setSideBarVisible] call they make, if any. *)
Definition onSideBarOpen (sideBarVisible : bool) : option bool :=
  if negb sideBarVisible then Some true else None.

Definition onSideBarClose (sideBarVisible : bool) : option bool :=
  if sideBarVisible then Some false else None.

(** Invoking a callback of the current render. *)
Definition invoke (callback : bool → option bool) (d : Drawer) : Drawer :=
  match callback (sideBarVisible d) with
  | Some visible => {| sideBarVisible := visible; updates := S (updates d) |}
  | None => d
  end.

(** The debug flag is enabled. *)
Definition debug_enabled (REACT_APP_DEBUG : option string) : Prop :=
  REACT_APP_DEBUG = Some "true".

(** A list that was extended with the debug-tools entry. *)
Definition has_debug_entry (items : list LinkToPage) : Prop :=
  DEBUG_TOOLS ∈ items.

(** *** Sequences of drawer actions *)

(** The two actions of the layout: the header button and the drawer's own
    close action. *)
Inductive DrawerAction : Type :=
| Open
| Close.

Definition callback (action : DrawerAction) : bool → option bool :=
  match action with
  | Open => onSideBarOpen
  | Close => onSideBarClose
  end.

(** The visibility an action asks for. *)
Definition wanted (action : DrawerAction) : bool :=
  match action with
  | Open => true
  | Close => false
  end.

(** The actions one after the other, each on the render that follows the
    one before. *)
Definition perform_all (actions : list DrawerAction) (d : Drawer) : Drawer :=
  foldl (λ d action, invoke (callback action) d) d actions.

(** How often the visibility changes along a sequence of actions that
    starts from [visible]. *)
Fixpoint flips (visible : bool) (actions : list DrawerAction) : nat :=
  match actions with
  | [] => 0
  | action :: rest =>
      (if bool_decide (visible = wanted action) then 0 else 1)
      + flips (wanted action) rest
  end.

(** *** What a render shows *)

Definition TITLE_PUBLIC : string := "_TITLE_ app".

(** The constants of [./config], which the layout imports. *)
Record Config : Type := mkConfig {
  BOTTOM_BAR_DESKTOP_VISIBLE : bool;
  TOP_BAR_DESKTOP_HEIGHT : JsVal;
  TOP_BAR_MOBILE_HEIGHT : JsVal;
}.

(** The element tree of lines 105-147, as the props its parts receive.
    [bottomBar] is [None] when the footer is left empty; the two click
    handlers are given by the [setSideBarVisible] call they would make. *)
Record Rendered : Type := mkRendered {
  documentTitle : string;
  paddingTop : JsVal;
  startIcon : string;
  startClick : option bool;
  topBarTitle : string;
  endIcon : string;
  endTitle : string;
  sideBarAnchor : string;
  sideBarOpen : bool;
  sideBarVariant : string;
  sideBarItems : list LinkToPage;
  sideBarClose : option bool;
  errorBoundary : string;
  bottomBar : option (list LinkToPage);
}.

(** One render of [PublicLayout], lines 70-148: [onMobile] is what
    [useOnMobile()] returns, [darkMode] is [state.darkMode] of the store,
    [sideBarVisible] the component's own state. *)
Definition PublicLayout (config : Config) (items : NavItems)
    (onMobile darkMode sideBarVisible : bool) : Rendered :=
  let bottomBarVisible := onMobile || BOTTOM_BAR_DESKTOP_VISIBLE config in
  let sidebarOpen := sideBarVisible in
  let sidebarVariant := "temporary" in
  let title := TITLE_PUBLIC in
  {| documentTitle := title;
     paddingTop :=
       if onMobile then TOP_BAR_MOBILE_HEIGHT config else TOP_BAR_DESKTOP_HEIGHT config;
     startIcon := "logo";
     startClick := onSideBarOpen sideBarVisible;
     topBarTitle := title;
     endIcon := if darkMode then "day" else "night";
     endTitle := if darkMode then "Switch to Light mode" else "Switch to Dark mode";
     sideBarAnchor := "left";
     sideBarOpen := sidebarOpen;
     sideBarVariant := sidebarVariant;
     sideBarItems := SIDE_BAR_ITEMS items;
     sideBarClose := onSideBarClose sideBarVisible;
     errorBoundary := "Content";
     bottomBar := if bottomBarVisible then Some (BOTTOM_BAR_ITEMS items) else None |}.

End Layout.
Import Layout.

(** * Results *)

(** ** Values *)

Example typeof_null : typeof JNull = "object".
Proof. reflexivity. Qed.

Example spread_array :
  own_enumerable (JArr [JStr "a"; JStr "b"]) !! "1" = Some (JStr "b").
Proof. vm_compute. reflexivity. Qed.

Example read_inherited :
  get_prop (JObj ∅) "constructor" = Ok (JFun "constructor").
Proof. vm_compute. reflexivity. Qed.

Lemma js_or_truthy (a b : JsVal) : truthy b = true → truthy (js_or a b) = true.
Proof. intros Hb. unfold js_or. by destruct (truthy a) eqn:Ha. Qed.

Lemma truthy_not_nullish (v : JsVal) : truthy v = true → nullish v = false.
Proof. by destruct v. Qed.

(** A falsy value has no own enumerable property: spreading it, or listing
    its keys, finds nothing. *)
Lemma own_enumerable_falsy (v : JsVal) : truthy v = false → own_enumerable v = ∅.
Proof.
  destruct v as [| |b|z| |s|items|props|g]; try done.
  simpl. destruct s; [done | discriminate].
Qed.

Lemma own_enumerable_js_or (r : JsVal) :
  own_enumerable (js_or r (JObj ∅)) = own_enumerable r.
Proof.
  unfold js_or. destruct (truthy r) eqn:Hr; [done |].
  rewrite (own_enumerable_falsy r Hr). reflexivity.
Qed.

Lemma inherited_other (f : string) :
  f ∉ object_prototype_keys → inherited f = JUndefined.
Proof. intros Hf. unfold inherited. by rewrite bool_decide_eq_false_2. Qed.

Lemma get_prop_plain (props : gmap string JsVal) (f : string) :
  f ∉ object_prototype_keys →
  get_prop (JObj props) f = Ok (default JUndefined (props !! f)).
Proof. intros Hf. unfold get_prop. simpl. by rewrite inherited_other. Qed.

(** ** The change handler *)

Section ChangeHandler.

Implicit Types (t : Target) (st : FormState) (f : string).

(** What the handler stores for a control. *)
Lemma values_after_change event st :
  own_enumerable (values (onFieldChange event st)) =
  <[property_key (target event ≫= name) :=
      if bool_decide (type <$> target event = Some "checkbox")
      then optional JBool (checked <$> target event)
      else optional JStr (value <$> target event)]> (own_enumerable (values st)).
Proof. reflexivity. Qed.

Lemma touched_after_change event st :
  own_enumerable (touched (onFieldChange event st)) =
  <[property_key (target event ≫= name) := JBool true]> (own_enumerable (touched st)).
Proof. reflexivity. Qed.

Lemma checkbox_test t :
  bool_decide (Some (type t) = Some "checkbox") = String.eqb (type t) "checkbox".
Proof.
  destruct (String.eqb_spec (type t) "checkbox") as [-> | Hne].
  - by rewrite bool_decide_eq_true_2.
  - rewrite bool_decide_eq_false_2; [done | congruence].
Qed.

(** C1. After a change event on a control named [n], [values[n]] holds the
    control's [checked] boolean when its type is ['checkbox'] and its
    string [value] otherwise, and [touched[n]] is [true]; a control with
    no name is bound under the key [undefined]. *)
Theorem onFieldChange_binds_by_name t st :
  let st' := onFieldChange {| target := Some t |} st in
  let n := match name t with Some n => n | None => "undefined" end in
  entry (values st') n =
    Some (if String.eqb (type t) "checkbox" then JBool (checked t) else JStr (value t))
  ∧ entry (touched st') n = Some (JBool true).
Proof.
  intros st' n. unfold entry. subst st'.
  rewrite values_after_change, touched_after_change. cbn [target fmap option_fmap option_map].
  rewrite checkbox_test.
  replace (property_key (Some t ≫= name)) with n
    by (subst n; simpl; by destruct (name t)).
  rewrite !lookup_insert_eq. split; [| done].
  by destruct (String.eqb (type t) "checkbox").
Qed.

(** An event without a target binds [undefined] under the key [undefined]. *)
Lemma onFieldChange_no_target st :
  let st' := onFieldChange {| target := None |} st in
  entry (values st') "undefined" = Some JUndefined
  ∧ entry (touched st') "undefined" = Some (JBool true).
Proof.
  simpl. unfold entry. simpl. by rewrite !lookup_insert_eq.
Qed.

(** C5. A change event on the field named [n] leaves the [values] and
    [touched] entries of every other field as they were, and leaves
    [errors] as it was. *)
Theorem onFieldChange_frame t st f :
  f ≠ match name t with Some n => n | None => "undefined" end →
  let st' := onFieldChange {| target := Some t |} st in
  entry (values st') f = entry (values st) f
  ∧ entry (touched st') f = entry (touched st) f
  ∧ errors st' = errors st.
Proof.
  intros Hf st'. unfold entry. subst st'.
  rewrite values_after_change, touched_after_change.
  assert (property_key (target {| target := Some t |} ≫= name) ≠ f) as Hk
    by (simpl; destruct (name t); simpl; congruence).
  by rewrite !lookup_insert_ne.
Qed.

Lemma onFieldChange_frame_witness :
  "password" ≠ "email"
  ∧ let st := {| values := JObj {[ "password" := JStr "secret" ]};
                 touched := JObj {[ "password" := JBool true ]};
                 errors := JObj {[ "email" := JArr [JStr "Email can't be blank"] ]} |} in
    let t := {| name := Some "email"; type := "text"; checked := false; value := "x" |} in
    let st' := onFieldChange {| target := Some t |} st in
    entry (values st') "password" = entry (values st) "password"
    ∧ entry (touched st') "password" = entry (touched st) "password"
    ∧ errors st' = errors st.
Proof.
  split; [discriminate |].
  intros st t.
  apply (onFieldChange_frame t st "password"). simpl. discriminate.
Defined.

End ChangeHandler.

Example change_email :
  let st := {| values := JObj {[ "password" := JStr "secret" ]};
               touched := JObj {[ "password" := JBool true ]};
               errors := JObj ∅ |} in
  let t := {| name := Some "email"; type := "text"; checked := false; value := "x" |} in
  onFieldChange {| target := Some t |} st =
  {| values := JObj {[ "email" := JStr "x"; "password" := JStr "secret" ]};
     touched := JObj {[ "email" := JBool true; "password" := JBool true ]};
     errors := JObj ∅ |}.
Proof. vm_compute. reflexivity. Qed.

Example change_subscribe :
  let t := {| name := Some "subscribe"; type := "checkbox"; checked := true; value := "on" |} in
  entry (values (onFieldChange {| target := Some t |} DEFAULT_FORM_STATE)) "subscribe"
  = Some (JBool true).
Proof. vm_compute. reflexivity. Qed.

(** ** Revalidation and the life of a form *)

Section Lifetime.

Variable validate : JsVal → JsVal → JsVal.

Implicit Types (st : FormState) (h : Hook) (f : string) (ops : list Op).
Implicit Types (schema : JsVal).

Lemma revalidate_errors schema st :
  errors (revalidate validate schema st) = js_or (validate (values st) schema) (JObj ∅).
Proof. reflexivity. Qed.

(** The errors of a revalidated state, read as a mapping, are the
    validator's result read as a mapping. *)
Lemma revalidate_errors_mapping schema st :
  own_enumerable (errors (revalidate validate schema st))
  = own_enumerable (validate (values st) schema).
Proof. rewrite revalidate_errors. apply own_enumerable_js_or. Qed.

Lemma settled_step schema h op :
  settled validate schema h → settled validate schema (hook_step validate schema h op).
Proof.
  intros Hh. destruct op as [event |]; simpl.
  - intros Hdue. discriminate Hdue.
  - unfold flushEffect. destruct (effectDue h) eqn:Hdue; [| exact Hh].
    intros _. simpl. apply revalidate_errors_mapping.
Qed.

Lemma settled_steps schema ops h :
  settled validate schema h →
  settled validate schema (foldl (hook_step validate schema) h ops).
Proof.
  revert h. induction ops as [| op ops IH]; intros h Hh; [exact Hh |].
  simpl. apply IH, settled_step, Hh.
Qed.

Lemma mount_effect_due params h : mount params = Ok h → effectDue h = true.
Proof.
  unfold mount. destruct (useAppForm params None) as [r | e]; simpl; [| done].
  by intros [= <-].
Qed.

Lemma settled_mount schema params h : mount params = Ok h → settled validate schema h.
Proof. intros Hm Hdue. rewrite (mount_effect_due _ _ Hm) in Hdue. discriminate Hdue. Qed.

Lemma flushEffect_settles schema h :
  settled validate schema h →
  let h' := flushEffect validate schema h in
  effectDue h' = false
  ∧ own_enumerable (errors (state h'))
    = own_enumerable (validate (values (state h')) schema).
Proof.
  intros Hh. unfold flushEffect. destruct (effectDue h) eqn:Hdue; simpl.
  - split; [done | apply revalidate_errors_mapping].
  - split; [done | by apply Hh].
Qed.

(** C2. In every state a mounted hook reaches by change events and effect
    runs, once the revalidation that follows the last change of [values]
    (the mount included) has run, the [errors] mapping is the result of
    applying the schema to the current [values]: the fields with
    violations and their message lists, nothing for the others.  It
    replaces the previous [errors] whole: what they were has no bearing on
    the outcome, and [values] and [touched] are as before. *)
Theorem errors_are_revalidated_values params h0 ops :
  mount params = Ok h0 →
  let schema := validationSchema params in
  let h := foldl (hook_step validate schema) h0 ops in
  let h' := flushEffect validate schema h in
  effectDue h' = false
  ∧ own_enumerable (errors (state h'))
    = own_enumerable (validate (values (state h')) schema)
  ∧ values (state h') = values (state h)
  ∧ touched (state h') = touched (state h)
  ∧ ∀ previous,
      errors (revalidate validate schema
                {| values := values (state h); touched := touched (state h);
                   errors := previous |})
      = errors (revalidate validate schema (state h)).
Proof.
  intros Hmount schema h h'.
  assert (settled validate schema h) as Hh
    by (apply settled_steps; eapply settled_mount; eauto).
  destruct (flushEffect_settles schema h Hh) as [Hdue Herr].
  repeat split; try done.
  - subst h'. unfold flushEffect. by destruct (effectDue h).
  - subst h'. unfold flushEffect. by destruct (effectDue h).
Qed.

(** *** Touched fields stay touched *)

Lemma entry_set_insert (m : gmap string JsVal) (k f : string) :
  from_option truthy false (m !! f) = true →
  from_option truthy false (<[k := JBool true]> m !! f) = true.
Proof.
  intros Hf. destruct (decide (k = f)) as [-> | Hne].
  - by rewrite lookup_insert_eq.
  - by rewrite lookup_insert_ne.
Qed.

Lemma touched_kept_by_op schema st op f :
  entry_set (touched st) f = true →
  entry_set (touched (apply_op validate schema st op)) f = true.
Proof.
  intros Hf. destruct op as [event |]; [| exact Hf].
  unfold entry_set, entry. simpl apply_op.
  rewrite touched_after_change. by apply entry_set_insert.
Qed.

(** C7. Whatever change events and revalidation steps follow, a field
    whose [touched] entry is set keeps it set: no operation removes the
    entry or makes it false. *)
Theorem touched_only_grows schema ops st f :
  entry_set (touched st) f = true →
  entry_set (touched (run validate schema ops st)) f = true.
Proof.
  revert st. unfold run.
  induction ops as [| op ops IH]; intros st Hf; [exact Hf |].
  simpl. apply IH. by apply touched_kept_by_op.
Qed.

(** Every entry is kept as it was or becomes [true]. *)
Lemma touched_entry_kept_or_true schema ops st f v :
  entry (touched st) f = Some v →
  entry (touched (run validate schema ops st)) f = Some v
  ∨ entry (touched (run validate schema ops st)) f = Some (JBool true).
Proof.
  revert st v. unfold run.
  induction ops as [| op ops IH]; intros st v Hf; [by left |].
  simpl. destruct op as [event |]; simpl apply_op.
  - destruct (decide (property_key (target event ≫= name) = f)) as [Hk | Hk].
    + right. destruct (IH (onFieldChange event st) (JBool true)) as [H | H]; try done.
      unfold entry. rewrite touched_after_change, Hk. apply lookup_insert_eq.
    + apply IH. unfold entry. rewrite touched_after_change.
      by rewrite lookup_insert_ne.
  - by apply IH.
Qed.

End Lifetime.

Section Revalidated.

Variable validate : JsVal → JsVal → JsVal.

Implicit Types (st : FormState) (f : string) (schema : JsVal).

Lemma formHasError_defined st f :
  nullish (touched st) = false → nullish (errors st) = false →
  ∃ b, formHasError st f = Ok b.
Proof.
  intros Ht He. unfold formHasError, get_prop. rewrite Ht, He. simpl.
  destruct (truthy _); simpl; eauto.
Qed.

Lemma formGetError_defined st f :
  nullish (touched st) = false → nullish (errors st) = false →
  ∃ v, formGetError st f = Ok v.
Proof.
  intros Ht He. unfold formGetError.
  destruct (formHasError_defined st f Ht He) as [b ->]. simpl.
  destruct b; [| eauto].
  unfold get_prop. rewrite He. simpl. eauto.
Qed.

(** C10. After a revalidation step [errors] is an object, not [null] or
    [undefined]: a validator that reports no violation returns nothing,
    and the empty object is stored in its place.  [isFormValid()] is true
    in exactly that case, and the error accessors find an [errors] object
    to read from. *)
Theorem revalidated_errors_defined schema st :
  let r := validate (values st) schema in
  let st' := revalidate validate schema st in
  validate_result r = true →
  (∃ props, errors st' = JObj props ∧ (nullish r = true → props = ∅))
  ∧ nullish (errors st') = false
  ∧ (isFormValid st' = Ok true ↔ nullish r = true)
  ∧ ∀ f, nullish (touched st) = false →
         ∃ b v, formHasError st' f = Ok b ∧ formGetError st' f = Ok v.
Proof.
  intros r st' Hr.
  assert (nullish (errors st') = false) as Hdef.
  { apply truthy_not_nullish. subst st'. rewrite revalidate_errors.
    by apply js_or_truthy. }
  split; [| split; [exact Hdef | split]].
  - subst st'. rewrite revalidate_errors. fold r.
    destruct r; try discriminate Hr; simpl; eauto.
    eexists. split; [done | discriminate].
  - subst st'. unfold isFormValid. rewrite revalidate_errors. fold r.
    destruct r as [| |b|z| |s|items|props|g]; try discriminate Hr; simpl; try done.
    unfold keys_length. simpl. simpl in Hr.
    apply Nat.ltb_lt in Hr. split; [| discriminate].
    intros [= Hlt]. apply Nat.ltb_lt in Hlt. lia.
  - intros f Ht.
    destruct (formHasError_defined st' f Ht Hdef) as [b Hb].
    destruct (formGetError_defined st' f Ht Hdef) as [v Hv].
    eauto.
Qed.

End Revalidated.

(** ** The error accessors *)

Section Accessors.

Implicit Types (st : FormState) (f : string).

Lemma formHasError_plain st f :
  plain_object (touched st) = true → plain_object (errors st) = true →
  f ∉ object_prototype_keys →
  formHasError st f = Ok (entry_set (touched st) f && entry_set (errors st) f).
Proof.
  intros Ht He Hf. unfold formHasError, entry_set, entry.
  destruct (touched st) as [| | | | | | |tm|]; try discriminate Ht.
  destruct (errors st) as [| | | | | | |em|]; try discriminate He.
  rewrite !get_prop_plain by done. simpl.
  destruct (tm !! f) as [t |]; simpl; [| done].
  destruct (truthy t); simpl; [| done].
  by destruct (em !! f).
Qed.

Lemma formGetError_plain st f :
  plain_object (touched st) = true → plain_object (errors st) = true →
  f ∉ object_prototype_keys →
  formGetError st f =
  Ok (if entry_set (touched st) f && entry_set (errors st) f
      then opt_index (default JUndefined (entry (errors st) f)) 0
      else JNull).
Proof.
  intros Ht He Hf. unfold formGetError.
  rewrite formHasError_plain by done. simpl.
  destruct (entry_set (touched st) f && entry_set (errors st) f); [| done].
  unfold entry.
  destruct (errors st) as [| | | | | | |em|]; try discriminate He.
  by rewrite get_prop_plain.
Qed.

(** What the two accessors compute on a state whose [touched] and
    [errors] are plain objects, for a field name that [Object.prototype]
    does not define: the test on the error entry is its truthiness, the
    message is the first element of the entry. *)
Lemma field_error_accessors st f :
  plain_object (touched st) = true → plain_object (errors st) = true →
  f ∉ object_prototype_keys →
  (formHasError st f = Ok (entry_set (touched st) f && entry_set (errors st) f))
  ∧ (∀ msg rest, entry_set (touched st) f = true →
       entry (errors st) f = Some (JArr (msg :: rest)) →
       formHasError st f = Ok true ∧ formGetError st f = Ok msg)
  ∧ (entry_set (touched st) f = true → entry (errors st) f = Some (JArr []) →
       formHasError st f = Ok true ∧ formGetError st f = Ok JUndefined)
  ∧ (formHasError st f = Ok false → formGetError st f = Ok JNull)
  ∧ (entry_set (touched st) f = false →
       formHasError st f = Ok false ∧ formGetError st f = Ok JNull).
Proof.
  intros Ht He Hf.
  rewrite formGetError_plain, formHasError_plain by done.
  split; [done |]. split; [| split; [| split]].
  - intros msg rest Hset Hentry. unfold entry_set at 2. unfold entry_set at 3.
    rewrite Hset, Hentry. done.
  - intros Hset Hentry. unfold entry_set at 2. unfold entry_set at 3.
    rewrite Hset, Hentry. done.
  - intros [= ->]. done.
  - intros ->. done.
Qed.

Lemma field_error_accessors_witness :
  let st := {| values := JObj {[ "email" := JStr "" ]};
               touched := JObj {[ "email" := JBool true ]};
               errors := JObj {[ "email" := JArr [JStr "Email can't be blank"] ]} |} in
  (plain_object (touched st) = true ∧ plain_object (errors st) = true
   ∧ "email" ∉ object_prototype_keys)
  ∧ formHasError st "email" = Ok true
  ∧ formGetError st "email" = Ok (JStr "Email can't be blank").
Proof.
  intros st.
  assert ("email" ∉ object_prototype_keys) as Hf by compute_done.
  split; [done |].
  destruct (field_error_accessors st "email" eq_refl eq_refl Hf)
    as (_ & Hfirst & _).
  apply (Hfirst (JStr "Email can't be blank") []); reflexivity.
Defined.

(** C3.  The specification has [fieldHasError(f)] true iff [f] is touched
    and has a non-empty error entry, and [fieldGetError(f)] the first
    message then and [null] otherwise.  On a touched field whose
    error entry is the empty list the code departs from it: there is no
    message, yet [formHasError] answers [true], and [formGetError]
    answers [undefined], where its own comment promises [null] when there
    is no error. *)
Theorem accessors_on_empty_entry :
  entry_set (touched EMPTY_ENTRY_STATE) "email" = true
  ∧ non_empty_error_entry EMPTY_ENTRY_STATE "email" = false
  ∧ documented_error EMPTY_ENTRY_STATE "email" = JNull
  ∧ formHasError EMPTY_ENTRY_STATE "email" = Ok true
  ∧ formGetError EMPTY_ENTRY_STATE "email" = Ok JUndefined.
Proof. repeat split; vm_compute; reflexivity. Qed.

(** So the two sides of the specified equivalence differ there. *)
Lemma empty_entry_has_error :
  ¬ (formHasError EMPTY_ENTRY_STATE "email" = Ok true
     ↔ touched_with_non_empty_entry EMPTY_ENTRY_STATE "email" = true).
Proof.
  intros [Hhas _].
  assert (formHasError EMPTY_ENTRY_STATE "email" = Ok true) as H
    by (vm_compute; reflexivity).
  apply Hhas in H. vm_compute in H. discriminate H.
Qed.

(** The same test lets a name that [Object.prototype] defines read as
    touched and in error on any state. *)
Example inherited_name_has_error :
  formHasError DEFAULT_FORM_STATE "constructor" = Ok true
  ∧ formGetError DEFAULT_FORM_STATE "constructor" = Ok JUndefined.
Proof. split; vm_compute; reflexivity. Qed.

End Accessors.

(** ** Construction *)

Section Construction.

Implicit Types (params : UseAppFormParams) (v : JsVal).

Lemma structured_object_typeof v :
  structured_object v = true ↔ truthy v = true ∧ typeof v = "object".
Proof.
  destruct v as [| |b|z| |s|items|props|g]; simpl; split;
    try done; intros [Ht Hty]; try done; discriminate Hty.
Qed.

(** A first render either creates the state or throws, and which of the
    two is decided by the kinds of the two arguments. *)
Lemma useAppForm_outcome params :
  match useAppForm params None with
  | Ok _ =>
      structured_object (validationSchema params) = true
      ∧ (missing (initialValues params) = true
         ∨ structured_object (initialValues params) = true
         ∨ initialValues params = JNull)
  | Throw _ =>
      structured_object (validationSchema params) = false
      ∨ (missing (initialValues params) = false
         ∧ structured_object (initialValues params) = false
         ∧ initialValues params ≠ JNull)
  end.
Proof.
  destruct params as [vs iv]. unfold useAppForm. simpl.
  destruct (truthy vs) eqn:Htruthy; simpl.
  2: { left. destruct vs; try done. }
  destruct vs; try discriminate Htruthy; simpl; try (by left);
    destruct iv; simpl; try (split; [done |]; eauto);
    right; repeat split; done.
Qed.

(** When a first render throws: the schema is not a structured object, or
    the initial values are given and are neither a structured object nor
    [null]. *)
Lemma useAppForm_throws_iff params :
  (∃ e, useAppForm params None = Throw e)
  ↔ structured_object (validationSchema params) = false
    ∨ (missing (initialValues params) = false
       ∧ structured_object (initialValues params) = false
       ∧ initialValues params ≠ JNull).
Proof.
  pose proof (useAppForm_outcome params) as H.
  destruct (useAppForm params None) as [r | e].
  - split; [intros [e He]; discriminate He |].
    destruct H as [Hs Hi]. intros [Hs' | (Hm & Hi' & Hn)]; [congruence |].
    destruct Hi as [Hi | [Hi | Hi]]; congruence.
  - split; [intros _; exact H | eauto].
Qed.

(** C6. For a valid schema and initial values, the state a first render
    creates has the supplied initial values as its [values], the empty
    object when none were supplied, and empty [touched] and [errors]. *)
Theorem useAppForm_initial_state (schema init : JsVal) :
  structured_object schema = true →
  missing init = true ∨ structured_object init = true →
  ∃ r, useAppForm {| validationSchema := schema; initialValues := init |} None = Ok r
       ∧ formState r = {| values := if missing init then JObj ∅ else init;
                          touched := JObj ∅;
                          errors := JObj ∅ |}.
Proof.
  intros Hs Hi. unfold useAppForm. simpl.
  apply structured_object_typeof in Hs as [-> ->]. simpl.
  destruct Hi as [Hi | Hi].
  - destruct init; try discriminate Hi. simpl. eauto.
  - destruct init; try discriminate Hi; simpl; eauto.
Qed.

Lemma useAppForm_initial_state_witness :
  let schema := JObj {[ "email" := JObj {[ "presence" := JBool true ]} ]} in
  let init := JObj {[ "name" := JStr "John Doe" ]} in
  (structured_object schema = true
   ∧ (missing init = true ∨ structured_object init = true))
  ∧ ∃ r, useAppForm {| validationSchema := schema; initialValues := init |} None = Ok r
         ∧ formState r = {| values := init; touched := JObj ∅; errors := JObj ∅ |}.
Proof.
  intros schema init. split; [split; [reflexivity | right; reflexivity] |].
  apply (useAppForm_initial_state schema init); [reflexivity | right; reflexivity].
Defined.

(** C4, at [initialValues: null].  The specification has the call
    refused, and the guard of line 89 lets it through, since
    [typeof null] is ['object']: the state is created with [null] for its
    [values]. *)
Theorem useAppForm_null_initialValues :
  let params := {| validationSchema := JObj ∅; initialValues := JNull |} in
  refused params = true
  ∧ ∃ r, useAppForm params None = Ok r ∧ values (formState r) = JNull.
Proof. split; [reflexivity |]. eexists. split; reflexivity. Qed.

(** The same call with the schema [null] is refused, by line 83. *)
Example useAppForm_null_schema :
  useAppForm {| validationSchema := JNull; initialValues := JUndefined |} None
  = Throw (Error "useAppForm() - the option `validationSchema` is required").
Proof. reflexivity. Qed.

Example useAppForm_string_initialValues :
  useAppForm {| validationSchema := JObj ∅; initialValues := JStr "x" |} None
  = Throw (Error "useAppForm() - the option `initialValues` should be an object").
Proof. reflexivity. Qed.

(** Apart from [initialValues: null], a first render throws exactly on
    the arguments the specification names. *)
Lemma useAppForm_throws_as_specified params :
  initialValues params ≠ JNull →
  (∃ e, useAppForm params None = Throw e) ↔ refused params = true.
Proof.
  intros Hnull. rewrite useAppForm_throws_iff. unfold refused.
  destruct (structured_object (validationSchema params)); simpl.
  - destruct (missing (initialValues params)), (structured_object (initialValues params));
      simpl; split; try done; try (intros [H | (H1 & H2 & H3)]; done).
    intros _. right. done.
  - split; [done | by left].
Qed.

End Construction.

(** ** The public layout *)

Section Navigation.

Implicit Types (env : option string).

Lemma debug_entry_in_side env :
  debug_enabled env ↔ has_debug_entry (SIDE_BAR_ITEMS (evaluate env)).
Proof.
  unfold debug_enabled, has_debug_entry, evaluate. simpl.
  case_bool_decide as Henv; split; try done.
  - intros _. unfold push. set_solver.
  - intros Hin. exfalso.
    repeat (apply elem_of_cons in Hin as [Hin | Hin]; [discriminate Hin |]).
    by apply elem_of_nil in Hin.
Qed.

(** C9, amended.  The two item lists are fixed lists.  The side-bar list
    gets the debug-tools entry, after its three fixed entries, exactly
    when the debug flag is ['true'] at module evaluation; the bottom-bar
    list is its three fixed entries whatever the flag.  With the flag
    disabled both lists hold only their three fixed entries. *)
Theorem navigation_items env :
  (debug_enabled env ↔ has_debug_entry (SIDE_BAR_ITEMS (evaluate env)))
  ∧ SIDE_BAR_ITEMS (evaluate env)
    = ([LOG_IN; SIGN_UP; ABOUT]
       ++ if bool_decide (debug_enabled env) then [DEBUG_TOOLS] else [])%list
  ∧ BOTTOM_BAR_ITEMS (evaluate env) = [LOG_IN; SIGN_UP; ABOUT].
Proof.
  split; [apply debug_entry_in_side |]. split; [| reflexivity].
  unfold evaluate, debug_enabled. simpl. by case_bool_decide.
Qed.

(** With the flag enabled the bottom-bar list has no debug-tools entry. *)
Lemma bottom_bar_not_extended :
  ¬ (debug_enabled (Some "true")
     ↔ has_debug_entry (BOTTOM_BAR_ITEMS (evaluate (Some "true")))).
Proof.
  intros [Hin _]. specialize (Hin eq_refl).
  unfold has_debug_entry in Hin. simpl in Hin.
  repeat (apply elem_of_cons in Hin as [Hin | Hin]; [discriminate Hin |]).
  by apply elem_of_nil in Hin.
Qed.

Example side_bar_debug :
  SIDE_BAR_ITEMS (evaluate (Some "true")) = [LOG_IN; SIGN_UP; ABOUT; DEBUG_TOOLS].
Proof. reflexivity. Qed.

Example side_bar_flag_unset :
  SIDE_BAR_ITEMS (evaluate None) = [LOG_IN; SIGN_UP; ABOUT].
Proof. reflexivity. Qed.

End Navigation.

Section DrawerActions.

(** C8. Opening an open drawer and closing a closed one make no state
    update.  Two opens in a row from a closed drawer, or two closes in a
    row from an open one, make exactly one update; from any state the
    second of two equal actions changes nothing. *)
Theorem drawer_actions_idempotent (visible : bool) (n : nat) :
  invoke onSideBarOpen (mkDrawer true n) = mkDrawer true n
  ∧ invoke onSideBarClose (mkDrawer false n) = mkDrawer false n
  ∧ invoke onSideBarOpen (invoke onSideBarOpen (mkDrawer false n)) = mkDrawer true (S n)
  ∧ invoke onSideBarClose (invoke onSideBarClose (mkDrawer true n)) = mkDrawer false (S n)
  ∧ invoke onSideBarOpen (invoke onSideBarOpen (mkDrawer visible n))
    = invoke onSideBarOpen (mkDrawer visible n)
  ∧ invoke onSideBarClose (invoke onSideBarClose (mkDrawer visible n))
    = invoke onSideBarClose (mkDrawer visible n).
Proof. by destruct visible. Qed.

End DrawerActions.

(** ** A form with a required field *)

Section SignUp.

Lemma validate_presence_result (attributes schema : JsVal) :
  validate_result (validate_presence attributes schema) = true.
Proof.
  unfold validate_presence. case_decide as Hsize; [done |].
  simpl. apply Nat.ltb_lt. lia.
Qed.

Lemma errors_are_revalidated_values_witness :
  mount SIGNUP_PARAMS = Ok SIGNUP_MOUNTED
  ∧ let schema := validationSchema SIGNUP_PARAMS in
    let h := foldl (hook_step validate_presence schema) SIGNUP_MOUNTED
               [Revalidate; Change (text_change "email" "x");
                Change (text_change "email" "")] in
    let h' := flushEffect validate_presence schema h in
    effectDue h' = false
    ∧ own_enumerable (errors (state h'))
      = own_enumerable (validate_presence (values (state h')) schema)
    ∧ values (state h') = values (state h)
    ∧ touched (state h') = touched (state h)
    ∧ ∀ previous,
        errors (revalidate validate_presence schema
                  {| values := values (state h); touched := touched (state h);
                     errors := previous |})
        = errors (revalidate validate_presence schema (state h)).
Proof.
  split; [reflexivity |].
  apply (errors_are_revalidated_values validate_presence SIGNUP_PARAMS SIGNUP_MOUNTED).
  reflexivity.
Defined.

Lemma touched_only_grows_witness :
  let st := onFieldChange (text_change "email" "x") DEFAULT_FORM_STATE in
  let ops := [Revalidate; Change (text_change "password" "secret"); Revalidate] in
  entry_set (touched st) "email" = true
  ∧ entry_set (touched (run validate_presence SIGNUP_SCHEMA ops st)) "email" = true.
Proof.
  intros st ops. split; [reflexivity |].
  apply (touched_only_grows validate_presence SIGNUP_SCHEMA ops st "email").
  reflexivity.
Defined.

Lemma revalidated_errors_defined_witness :
  let st := SIGNUP_ENTERED in
  let r := validate_presence (values st) SIGNUP_SCHEMA in
  let st' := revalidate validate_presence SIGNUP_SCHEMA st in
  (validate_result r = true ∧ r = JUndefined)
  ∧ ((∃ props, errors st' = JObj props ∧ (nullish r = true → props = ∅))
     ∧ nullish (errors st') = false
     ∧ (isFormValid st' = Ok true ↔ nullish r = true)
     ∧ ∀ f, nullish (touched st) = false →
            ∃ b v, formHasError st' f = Ok b ∧ formGetError st' f = Ok v)
  ∧ errors st' = JObj ∅
  ∧ isFormValid st' = Ok true.
Proof.
  intros st r st'.
  assert (validate_result r = true) as Hr by (vm_compute; reflexivity).
  assert (nullish r = true) as Hnone by (vm_compute; reflexivity).
  pose proof (revalidated_errors_defined validate_presence SIGNUP_SCHEMA st Hr)
    as Hthm.
  split; [split; [exact Hr | vm_compute; reflexivity] |].
  split; [exact Hthm |].
  destruct Hthm as ((props & Herr & Hempty) & _ & Hvalid & _).
  split.
  - fold st' in Herr. rewrite Herr. f_equal. apply Hempty, Hnone.
  - apply Hvalid, Hnone.
Defined.

(** The untouched form already has an error entry for the e-mail
    address, and reports none. *)
Example signup_untouched :
  let st := revalidate validate_presence SIGNUP_SCHEMA DEFAULT_FORM_STATE in
  entry (errors st) "email" = Some (JArr [JStr "Email can't be blank"])
  ∧ formHasError st "email" = Ok false
  ∧ formGetError st "email" = Ok JNull
  ∧ isFormValid st = Ok false
  ∧ isFormTouched st = Ok false.
Proof. repeat split; vm_compute; reflexivity. Qed.

(** Once the field is touched and still empty, the error shows. *)
Example signup_touched_empty :
  let st := state (flushEffect validate_presence SIGNUP_SCHEMA
                     (dispatch (text_change "email" "") SIGNUP_MOUNTED)) in
  formHasError st "email" = Ok true
  ∧ formGetError st "email" = Ok (JStr "Email can't be blank")
  ∧ isFormTouched st = Ok true.
Proof. repeat split; vm_compute; reflexivity. Qed.

(** With an address entered the validator returns nothing and the form is
    valid. *)
Example signup_filled :
  let st := state (flushEffect validate_presence SIGNUP_SCHEMA
                     (dispatch (text_change "email" "x") SIGNUP_MOUNTED)) in
  validate_presence (values st) SIGNUP_SCHEMA = JUndefined
  ∧ errors st = JObj ∅
  ∧ formHasError st "email" = Ok false
  ∧ isFormValid st = Ok true.
Proof. repeat split; vm_compute; reflexivity. Qed.

End SignUp.

(** * Further results *)

(** ** The accessors on states with a missing mapping *)

Section AccessorErrors.

Implicit Types (st : FormState) (f : string).

Lemma get_prop_defined (v : JsVal) (k : string) :
  nullish v = false → ∃ x, get_prop v k = Ok x.
Proof. intros Hv. unfold get_prop. rewrite Hv. eauto. Qed.

Lemma formHasError_true_reads_errors st f :
  formHasError st f = Ok true → nullish (errors st) = false.
Proof.
  unfold formHasError, get_prop.
  destruct (nullish (touched st)); [discriminate |]. simpl.
  destruct (truthy _); simpl; [| discriminate].
  by destruct (nullish (errors st)).
Qed.

(** [formGetError] throws exactly when [formHasError] does, and throws
    the same error: reading the message adds no failure of its own. *)
Theorem formGetError_throws_with_formHasError st f (e : JsError) :
  formGetError st f = Throw e ↔ formHasError st f = Throw e.
Proof.
  unfold formGetError.
  destruct (formHasError st f) as [[|] | e'] eqn:Hhas; simpl;
    [| split; discriminate | split; intros [= ->]; reflexivity].
  apply formHasError_true_reads_errors in Hhas.
  destruct (get_prop_defined (errors st) f Hhas) as [x ->]. simpl.
  split; discriminate.
Qed.

(** A state without a [touched] mapping makes both accessors throw a
    [TypeError], for every field. *)
Theorem accessors_need_touched st f :
  nullish (touched st) = true →
  formHasError st f = Throw TypeError ∧ formGetError st f = Throw TypeError.
Proof.
  intros Ht.
  assert (formHasError st f = Throw TypeError) as Hhas
    by (unfold formHasError, get_prop; by rewrite Ht).
  split; [exact Hhas |]. unfold formGetError. by rewrite Hhas.
Qed.

Lemma accessors_need_touched_witness :
  let st := {| values := JObj ∅; touched := JUndefined; errors := JObj ∅ |} in
  nullish (touched st) = true
  ∧ formHasError st "email" = Throw TypeError
  ∧ formGetError st "email" = Throw TypeError.
Proof.
  intros st. split; [reflexivity |].
  apply (accessors_need_touched st "email"). reflexivity.
Defined.

Lemma touched_read st f :
  plain_object (touched st) = true → f ∉ object_prototype_keys →
  ∃ t, get_prop (touched st) f = Ok t ∧ truthy t = entry_set (touched st) f.
Proof.
  intros Ht Hf. unfold entry_set, entry.
  destruct (touched st) as [| | | | | | |tm|]; try discriminate Ht.
  rewrite get_prop_plain by done. simpl.
  eexists. split; [done |]. by destruct (tm !! f).
Qed.

(** For a field that is not touched the accessors never read [errors]:
    they answer [false] and [null] whatever [errors] holds, [undefined]
    included. *)
Theorem untouched_field_skips_errors st f :
  plain_object (touched st) = true → f ∉ object_prototype_keys →
  entry_set (touched st) f = false →
  formHasError st f = Ok false ∧ formGetError st f = Ok JNull.
Proof.
  intros Ht Hf Hset.
  destruct (touched_read st f Ht Hf) as (t & Hread & Htruthy).
  assert (formHasError st f = Ok false) as Hhas.
  { unfold formHasError. rewrite Hread. simpl. rewrite Htruthy, Hset. done. }
  split; [exact Hhas |]. unfold formGetError. by rewrite Hhas.
Qed.

Lemma untouched_field_skips_errors_witness :
  let st := {| values := JObj ∅;
               touched := JObj {[ "password" := JBool true ]};
               errors := JUndefined |} in
  (plain_object (touched st) = true ∧ entry_set (touched st) "email" = false
   ∧ "email" ∉ object_prototype_keys)
  ∧ formHasError st "email" = Ok false ∧ formGetError st "email" = Ok JNull.
Proof.
  intros st.
  assert ("email" ∉ object_prototype_keys) as Hf by compute_done.
  split; [done |].
  apply (untouched_field_skips_errors st "email"); [reflexivity | exact Hf | reflexivity].
Defined.

(** With [touched] a plain object, [formHasError] throws exactly for a
    touched field of a state without an [errors] mapping. *)
Theorem formHasError_throws_iff st f :
  plain_object (touched st) = true → f ∉ object_prototype_keys →
  (formHasError st f = Throw TypeError
   ↔ entry_set (touched st) f = true ∧ nullish (errors st) = true).
Proof.
  intros Ht Hf.
  destruct (touched_read st f Ht Hf) as (t & Hread & Htruthy).
  unfold formHasError. rewrite Hread. simpl. rewrite Htruthy.
  destruct (entry_set (touched st) f); simpl.
  - unfold get_prop. destruct (nullish (errors st)); simpl; split; try done.
    intros [_ H]. discriminate H.
  - split; [discriminate | intros [H _]; discriminate H].
Qed.

Lemma formHasError_throws_iff_witness :
  let st := {| values := JObj ∅;
               touched := JObj {[ "email" := JBool true ]};
               errors := JUndefined |} in
  (plain_object (touched st) = true ∧ "email" ∉ object_prototype_keys)
  ∧ formHasError st "email" = Throw TypeError.
Proof.
  intros st.
  assert ("email" ∉ object_prototype_keys) as Hf by compute_done.
  split; [done |].
  apply (formHasError_throws_iff st "email" eq_refl Hf). split; reflexivity.
Defined.

End AccessorErrors.

(** ** Whole-form predicates *)

Section WholeForm.

Variable validate : JsVal → JsVal → JsVal.

Implicit Types (st : FormState) (f : string) (schema : JsVal).

(** [Object.keys] refuses [undefined] and [null]; behind the [?? {}] of
    lines 133 and 136 it is never given one, and counts the own keys. *)
Example keys_of_undefined : keys_length JUndefined = Throw TypeError.
Proof. reflexivity. Qed.

Lemma keys_length_guarded (v : JsVal) :
  keys_length (js_coalesce v (JObj ∅)) = Ok (size (own_enumerable v)).
Proof. by destruct v. Qed.

(** [isFormValid()] never throws, not even on a state whose [errors] is
    [undefined] or [null], which the [?? {}] guard turns into the empty
    object before [Object.keys] sees it; and it is true exactly when
    [errors] has no key of its own. *)
Theorem isFormValid_iff_no_keys st :
  (∃ b, isFormValid st = Ok b)
  ∧ (isFormValid st = Ok true ↔ own_enumerable (errors st) = ∅).
Proof.
  unfold isFormValid. rewrite keys_length_guarded. simpl.
  split; [eauto |].
  rewrite <- map_size_empty_iff. split.
  - intros [= Hlt]. apply Nat.ltb_lt in Hlt. lia.
  - intros ->. reflexivity.
Qed.

Lemma some_key_iff (v : JsVal) :
  (n ← keys_length (js_coalesce v (JObj ∅)); mret (0 <? n)%nat) = Ok true
  ↔ ∃ f x, entry v f = Some x.
Proof.
  rewrite keys_length_guarded. simpl. unfold entry. split.
  - intros [= Hsize]. apply Nat.ltb_lt in Hsize.
    destruct (map_choose (own_enumerable v)) as (f & x & Hfx); [| eauto].
    intros Hempty. apply map_size_empty_iff in Hempty. lia.
  - intros (f & x & Hfx). do 2 f_equal. apply Nat.ltb_lt.
    assert (size (own_enumerable v) ≠ 0); [| lia].
    rewrite map_size_empty_iff. intros Hempty.
    rewrite Hempty, lookup_empty in Hfx. discriminate Hfx.
Qed.

(** [isFormTouched()] never throws, not even on a state whose [touched]
    is [undefined] or [null], which the [?? {}] guard turns into the
    empty object before [Object.keys] sees it; and it is true exactly
    when [touched] has at least one key of its own. *)
Theorem isFormTouched_iff_some_key st :
  (∃ b, isFormTouched st = Ok b)
  ∧ (isFormTouched st = Ok true ↔ ∃ f v, entry (touched st) f = Some v).
Proof.
  split; [| apply some_key_iff].
  unfold isFormTouched. rewrite keys_length_guarded. simpl. eauto.
Qed.

(** After any change event the form is touched, also when the event has
    no target or the control no name. *)
Theorem isFormTouched_after_change (event : ChangeEvent) st :
  isFormTouched (onFieldChange event st) = Ok true.
Proof.
  apply some_key_iff.
  exists (property_key (target event ≫= name)), (JBool true).
  unfold entry. rewrite touched_after_change. apply lookup_insert_eq.
Qed.

(** A touched form stays touched through every sequence of change events
    and revalidation steps. *)
Theorem isFormTouched_stays schema (ops : list Op) st :
  isFormTouched st = Ok true →
  isFormTouched (run validate schema ops st) = Ok true.
Proof.
  unfold isFormTouched. rewrite !some_key_iff. intros (f & v & Hfv).
  destruct (touched_entry_kept_or_true validate schema ops st f v Hfv); eauto.
Qed.

End WholeForm.

(** ** Renders of the hook *)

Section Renders.

Implicit Types (params : UseAppFormParams) (cell : option FormState) (st : FormState).

(** The accepted arguments, and the state a render shows for them. *)
Lemma useAppForm_render params cell :
  (∃ e, useAppForm params cell = Throw e ∧ useAppForm params None = Throw e)
  ∨ (∃ r r0, useAppForm params cell = Ok r ∧ useAppForm params None = Ok r0
       ∧ formState r = default (formState r0) cell
       ∧ touched (formState r0) = JObj ∅ ∧ errors (formState r0) = JObj ∅
       ∧ fieldHasError r = formHasError (formState r)
       ∧ fieldGetError r = formGetError (formState r)
       ∧ isFormValid' r = isFormValid (formState r)
       ∧ isFormTouched' r = isFormTouched (formState r)
       ∧ onFieldChange' r = onFieldChange).
Proof.
  unfold useAppForm.
  destruct (negb (truthy (validationSchema params))); [left; eauto |].
  destruct (negb (String.eqb (typeof (validationSchema params)) "object"));
    [left; eauto |].
  destruct (negb (String.eqb (typeof _) "object")); [left; eauto |].
  right. do 2 eexists. repeat split.
Qed.

(** The guards run on every render and do not look at the stored state:
    a render throws exactly when the first render with the same arguments
    does, and throws the same error. *)
Theorem useAppForm_guards_every_render params cell (e : JsError) :
  useAppForm params cell = Throw e ↔ useAppForm params None = Throw e.
Proof.
  destruct (useAppForm_render params cell)
    as [(e' & -> & ->) | (r & r0 & -> & -> & _)]; [done |].
  split; discriminate.
Qed.

(** After the first render the stored state is what the hook shows: the
    initial values play no part any more, and the accessors and
    predicates it returns are those of the stored state. *)
Theorem useAppForm_rerender params st (r : UseAppFormReturn) :
  useAppForm params (Some st) = Ok r →
  formState r = st
  ∧ (∀ f, fieldHasError r f = formHasError st f)
  ∧ (∀ f, fieldGetError r f = formGetError st f)
  ∧ isFormValid' r = isFormValid st
  ∧ isFormTouched' r = isFormTouched st.
Proof.
  intros Hr.
  destruct (useAppForm_render params (Some st))
    as [(e & He & _) | (r' & r0 & Hr' & _ & Hst & _ & _ & Hhas & Hget & Hvalid & Htouched & _)];
    [congruence |].
  assert (r' = r) as -> by congruence. simpl in Hst.
  rewrite Hhas, Hget, Hvalid, Htouched, Hst. done.
Qed.

Lemma useAppForm_rerender_witness :
  let st := {| values := JObj {[ "email" := JStr "" ]};
               touched := JObj {[ "email" := JBool true ]};
               errors := JObj {[ "email" := JArr [JStr "Email can't be blank"] ]} |} in
  ∃ r, useAppForm SIGNUP_PARAMS (Some st) = Ok r
       ∧ formState r = st
       ∧ (∀ f, fieldHasError r f = formHasError st f)
       ∧ (∀ f, fieldGetError r f = formGetError st f)
       ∧ isFormValid' r = isFormValid st
       ∧ isFormTouched' r = isFormTouched st.
Proof.
  intros st. eexists. split; [reflexivity |].
  apply (useAppForm_rerender SIGNUP_PARAMS st). reflexivity.
Defined.

(** On the first render, before the validation effect has run, the hook
    reports a valid, untouched form without field errors, whatever the
    schema asks for. *)
Theorem useAppForm_first_render_valid params (r : UseAppFormReturn) :
  useAppForm params None = Ok r →
  isFormValid' r = Ok true
  ∧ isFormTouched' r = Ok false
  ∧ ∀ f, f ∉ object_prototype_keys →
         fieldHasError r f = Ok false ∧ fieldGetError r f = Ok JNull.
Proof.
  intros Hr.
  destruct (useAppForm_render params None)
    as [(e & He & _) | (r' & r0 & Hr' & Hr0 & Hst & Ht & He & Hhas & Hget & Hvalid & Htouched & _)];
    [congruence |].
  assert (r' = r) as -> by congruence.
  assert (r0 = r) as -> by congruence.
  rewrite Hhas, Hget, Hvalid, Htouched.
  unfold isFormValid, isFormTouched, formGetError, formHasError.
  rewrite Ht, He. split; [done |]. split; [done |].
  intros f Hf. rewrite !get_prop_plain by done. done.
Qed.

Lemma useAppForm_first_render_valid_witness :
  ∃ r, useAppForm SIGNUP_PARAMS None = Ok r
       ∧ isFormValid' r = Ok true
       ∧ isFormTouched' r = Ok false
       ∧ ∀ f, f ∉ object_prototype_keys →
              fieldHasError r f = Ok false ∧ fieldGetError r f = Ok JNull.
Proof.
  eexists. split; [reflexivity |].
  apply (useAppForm_first_render_valid SIGNUP_PARAMS). reflexivity.
Defined.

(** The errors of the guards, for arguments already taken apart. *)
Lemma useAppForm_guard_errors params cell :
  (useAppForm params cell
     = Throw (Error "useAppForm() - the option `validationSchema` is required")
   ↔ truthy (validationSchema params) = false)
  ∧ (useAppForm params cell
       = Throw (Error "useAppForm() - the option `validationSchema` should be an object")
     ↔ truthy (validationSchema params) = true
       ∧ typeof (validationSchema params) ≠ "object")
  ∧ (useAppForm params cell
       = Throw (Error "useAppForm() - the option `initialValues` should be an object")
     ↔ structured_object (validationSchema params) = true
       ∧ missing (initialValues params) = false
       ∧ typeof (initialValues params) ≠ "object")
  ∧ useAppForm params cell ≠ Throw TypeError.
Proof.
  destruct params as [vs iv]. unfold useAppForm. simpl.
  destruct (truthy vs) eqn:Htruthy; simpl.
  2: { repeat split; try done; try (intros [H _]; discriminate H). 
       intros [H _]. destruct vs; done. }
  destruct vs; try discriminate Htruthy; simpl;
    try (repeat split; try done; try (intros [H _]; done); intros [_ H]; done).
  all: destruct iv; simpl;
    repeat split; try done; try (intros [_ H]; done);
    try (intros (_ & H & _); done); try (intros (_ & _ & H); done).
Qed.

Lemma useAppFormCall_nullish (arg : JsVal) cell :
  nullish arg = true → useAppFormCall arg cell = Throw TypeError.
Proof. intros Harg. unfold useAppFormCall, destructure, get_prop. by rewrite Harg. Qed.

Lemma useAppFormCall_object (arg : JsVal) cell :
  nullish arg = false →
  useAppFormCall arg cell
  = useAppForm {| validationSchema := default JUndefined (entry arg "validationSchema");
                  initialValues := default JUndefined (entry arg "initialValues") |} cell.
Proof. intros Harg. unfold useAppFormCall, destructure, get_prop. by rewrite Harg. Qed.

(** Which error a call [useAppForm(arg)] throws.  A call without an
    argument object, or with [null] for it, throws a [TypeError] at the
    parameter pattern of line 81, and no other call does.  Of the guards
    the schema is checked first, so a call with both options wrong
    reports the schema, and the message tells a falsy schema from one of
    the wrong kind. *)
Theorem useAppForm_error_messages (arg : JsVal) cell :
  let schema := default JUndefined (entry arg "validationSchema") in
  let init := default JUndefined (entry arg "initialValues") in
  (useAppFormCall arg cell = Throw TypeError ↔ nullish arg = true)
  ∧ (useAppFormCall arg cell
       = Throw (Error "useAppForm() - the option `validationSchema` is required")
     ↔ nullish arg = false ∧ truthy schema = false)
  ∧ (useAppFormCall arg cell
       = Throw (Error "useAppForm() - the option `validationSchema` should be an object")
     ↔ nullish arg = false ∧ truthy schema = true ∧ typeof schema ≠ "object")
  ∧ (useAppFormCall arg cell
       = Throw (Error "useAppForm() - the option `initialValues` should be an object")
     ↔ nullish arg = false ∧ structured_object schema = true
       ∧ missing init = false ∧ typeof init ≠ "object").
Proof.
  intros schema init. destruct (nullish arg) eqn:Harg.
  - rewrite (useAppFormCall_nullish arg cell Harg).
    repeat split; try done; intros [H _]; discriminate H.
  - rewrite (useAppFormCall_object arg cell Harg). fold schema init.
    destruct (useAppForm_guard_errors
                {| validationSchema := schema; initialValues := init |} cell)
      as (Hreq & Hkind & Hinit & Htype).
    simpl in Hreq, Hkind, Hinit.
    split; [split; [done | discriminate] |].
    split; [rewrite Hreq; split; [done | by intros [_ H]] |].
    split; [rewrite Hkind; split; [done | by intros [_ H]] |].
    rewrite Hinit. split; [done | by intros [_ H]].
Qed.

Example useAppForm_no_argument :
  useAppFormCall JUndefined None = Throw TypeError.
Proof. reflexivity. Qed.

Example useAppForm_empty_argument :
  useAppFormCall (JObj ∅) None
  = Throw (Error "useAppForm() - the option `validationSchema` is required").
Proof. vm_compute. reflexivity. Qed.

End Renders.

(** ** How change events compose *)

Section Composition.

Implicit Types (st : FormState) (f : string) (e : ChangeEvent).

Lemma onFieldChange_unfold e st :
  onFieldChange e st =
  {| values := JObj (<[event_key e := event_value e]> (own_enumerable (values st)));
     touched := JObj (<[event_key e := JBool true]> (own_enumerable (touched st)));
     errors := errors st |}.
Proof. reflexivity. Qed.

(** Of two change events on the same key only the later one shows: the
    state is the one the later event alone would give.  An unnamed
    control and a control named ["undefined"] share a key. *)
Theorem onFieldChange_last_write_wins e1 e2 st :
  event_key e1 = event_key e2 →
  onFieldChange e2 (onFieldChange e1 st) = onFieldChange e2 st.
Proof.
  intros Hkey. rewrite !onFieldChange_unfold. simpl.
  rewrite Hkey, !insert_insert_eq. reflexivity.
Qed.

Lemma onFieldChange_last_write_wins_witness :
  let unnamed := {| target := Some {| name := None; type := "text";
                                     checked := false; value := "a" |} |} in
  let st := DEFAULT_FORM_STATE in
  event_key unnamed = event_key (text_change "undefined" "b")
  ∧ onFieldChange (text_change "undefined" "b") (onFieldChange unnamed st)
    = onFieldChange (text_change "undefined" "b") st.
Proof.
  intros unnamed st. split; [reflexivity |].
  apply (onFieldChange_last_write_wins unnamed (text_change "undefined" "b") st).
  reflexivity.
Defined.

(** Change events on different keys commute as far as the entries go:
    whichever of the two fields was edited first, every field has the
    same [values] entry and the same [touched] entry afterwards, and
    [errors] is the same.  (The order in which the two objects list the
    two keys follows the order of the events; it is outside the model and
    this statement.) *)
Theorem onFieldChange_commutes e1 e2 st f :
  event_key e1 ≠ event_key e2 →
  let first := onFieldChange e2 (onFieldChange e1 st) in
  let second := onFieldChange e1 (onFieldChange e2 st) in
  entry (values first) f = entry (values second) f
  ∧ entry (touched first) f = entry (touched second) f
  ∧ errors first = errors second.
Proof.
  intros Hkey first second. subst first second.
  rewrite !onFieldChange_unfold. unfold entry. simpl.
  assert (∀ (m : gmap string JsVal) a b,
            <[event_key e2 := b]> (<[event_key e1 := a]> m) !! f
            = <[event_key e1 := a]> (<[event_key e2 := b]> m) !! f) as Hswap.
  { intros m a b.
    destruct (decide (event_key e1 = f)) as [H1 | H1];
      destruct (decide (event_key e2 = f)) as [H2 | H2].
    - congruence.
    - rewrite lookup_insert_ne by done. rewrite H1. by rewrite !lookup_insert_eq.
    - rewrite H2, lookup_insert_eq. rewrite lookup_insert_ne by congruence.
      by rewrite lookup_insert_eq.
    - by rewrite !lookup_insert_ne by done. }
  by rewrite !Hswap.
Qed.

Lemma onFieldChange_commutes_witness :
  let e1 := text_change "email" "x" in
  let e2 := text_change "password" "secret" in
  let first := onFieldChange e2 (onFieldChange e1 DEFAULT_FORM_STATE) in
  let second := onFieldChange e1 (onFieldChange e2 DEFAULT_FORM_STATE) in
  event_key e1 ≠ event_key e2
  ∧ entry (values first) "email" = entry (values second) "email"
  ∧ entry (touched first) "email" = entry (touched second) "email"
  ∧ errors first = errors second.
Proof.
  intros e1 e2 first second. split; [discriminate |].
  apply (onFieldChange_commutes e1 e2 DEFAULT_FORM_STATE "email"). discriminate.
Defined.

End Composition.

(** ** Sequences of operations *)

Section Sequences.

Variable validate : JsVal → JsVal → JsVal.

Implicit Types (st : FormState) (f : string) (ops : list Op) (schema : JsVal).

(** Running the validation effect twice is running it once: the effect
    leaves [values] alone, so it gives itself no reason to run again. *)
Lemma revalidate_idempotent schema st :
  revalidate validate schema (revalidate validate schema st)
  = revalidate validate schema st.
Proof. reflexivity. Qed.

Lemma run_cons schema op ops st :
  run validate schema (op :: ops) st
  = run validate schema ops (apply_op validate schema st op).
Proof. reflexivity. Qed.

Lemma run_snoc schema ops op st :
  run validate schema (ops ++ [op]) st
  = apply_op validate schema (run validate schema ops st) op.
Proof. unfold run. by rewrite foldl_app. Qed.

(** [values] and [touched] after a sequence depend on nothing but
    [values] and [touched] before it. *)
Lemma run_ext schema ops st1 st2 :
  values st1 = values st2 → touched st1 = touched st2 →
  values (run validate schema ops st1) = values (run validate schema ops st2)
  ∧ touched (run validate schema ops st1) = touched (run validate schema ops st2).
Proof.
  revert st1 st2. induction ops as [| op ops IH]; intros st1 st2 Hv Ht; [done |].
  rewrite !run_cons. apply IH; destruct op as [e |]; simpl; by rewrite ?Hv, ?Ht.
Qed.

Lemma run_changes_only schema ops st :
  values (run validate schema ops st)
  = values (run validate schema (changes_only ops) st)
  ∧ touched (run validate schema ops st)
    = touched (run validate schema (changes_only ops) st).
Proof.
  revert st. induction ops as [| op ops IH]; intros st; [done |].
  destruct op as [e |]; simpl changes_only; rewrite ?run_cons.
  - apply IH.
  - destruct (IH st) as [Hv Ht]. rewrite <- Hv, <- Ht.
    by apply run_ext.
Qed.

(** The state after the closing revalidation does not depend on the
    effect runs in between: leaving them all out, as React does when it
    batches several changes into one render, gives the same state. *)
Theorem intermediate_revalidations_irrelevant schema ops st :
  run validate schema (ops ++ [Revalidate]) st
  = run validate schema (changes_only ops ++ [Revalidate]) st.
Proof.
  rewrite !run_snoc. simpl. unfold revalidate, validationEffect.
  destruct (run_changes_only schema ops st) as [-> ->]. reflexivity.
Qed.

(** After any sequence, the [touched] entry of a field is [true] when a
    change event of the sequence bound the field's key, and is what it
    was before otherwise. *)
Theorem touched_after_run schema ops st f :
  entry (touched (run validate schema ops st)) f
  = if bool_decide (f ∈ changed_fields ops) then Some (JBool true)
    else entry (touched st) f.
Proof.
  revert st. induction ops as [| op ops IH]; intros st.
  - cbn [run foldl changed_fields]. case_bool_decide as Hin; [| done].
    by apply elem_of_nil in Hin.
  - rewrite run_cons, IH. destruct op as [e |]; cbn [changed_fields apply_op]; [| done].
    unfold entry. rewrite touched_after_change. fold (event_key e).
    destruct (decide (event_key e = f)) as [<- | Hne].
    + rewrite lookup_insert_eq.
      rewrite (bool_decide_eq_true_2 (event_key e ∈ event_key e :: _));
        [| apply list_elem_of_here].
      by case_bool_decide.
    + rewrite lookup_insert_ne by done.
      case_bool_decide as Hrest.
      * rewrite bool_decide_eq_true_2; [done | by apply list_elem_of_further].
      * rewrite bool_decide_eq_false_2; [done |].
        intros [Heq | Hin]%elem_of_cons; [by subst | done].
Qed.

(** After any sequence, the [values] entry of a field is what the last
    change event on the field's key bound, and is what it was before when
    the sequence has no such event. *)
Theorem values_after_run schema ops st f :
  entry (values (run validate schema ops st)) f
  = match last_change ops f with
    | Some v => Some v
    | None => entry (values st) f
    end.
Proof.
  revert st. induction ops as [| op ops IH]; intros st; [done |].
  rewrite run_cons, IH. simpl last_change.
  destruct (last_change ops f) as [v |]; [done |].
  destruct op as [e |]; cbn [apply_op]; [| done].
  unfold entry. rewrite values_after_change.
  fold (event_key e). fold (event_value e).
  destruct (decide (event_key e = f)) as [<- | Hne].
  - by rewrite lookup_insert_eq.
  - by rewrite lookup_insert_ne.
Qed.

End Sequences.

Section SequencesOnSignUp.

Lemma isFormTouched_stays_witness :
  let st := onFieldChange (text_change "email" "x") DEFAULT_FORM_STATE in
  let ops := [Revalidate; Change (text_change "email" ""); Revalidate] in
  isFormTouched st = Ok true
  ∧ isFormTouched (run validate_presence SIGNUP_SCHEMA ops st) = Ok true.
Proof.
  intros st ops. split; [reflexivity |].
  apply (isFormTouched_stays validate_presence SIGNUP_SCHEMA ops st). reflexivity.
Defined.

(** Three edits and the effect runs between them, against the same edits
    batched. *)
Example signup_batched :
  run validate_presence SIGNUP_SCHEMA
    [Revalidate; Change (text_change "email" "x"); Revalidate;
     Change (text_change "email" ""); Revalidate] DEFAULT_FORM_STATE
  = {| values := JObj {[ "email" := JStr "" ]};
       touched := JObj {[ "email" := JBool true ]};
       errors := JObj {[ "email" := JArr [JStr "Email can't be blank"] ]} |}.
Proof. vm_compute. reflexivity. Qed.

End SequencesOnSignUp.

(** ** The drawer over a sequence of actions *)

Section DrawerSequences.

Implicit Types (d : Drawer) (action : DrawerAction) (actions : list DrawerAction).

Lemma invoke_callback action d :
  invoke (callback action) d
  = {| sideBarVisible := wanted action;
       updates := updates d
                  + if bool_decide (sideBarVisible d = wanted action) then 0 else 1 |}.
Proof.
  destruct d as [[|] n], action; unfold invoke; simpl;
    rewrite ?Nat.add_0_r, ?Nat.add_1_r; reflexivity.
Qed.

(** After an action the drawer is as the action asks, whatever it was
    before: open after the header button, closed after the close action. *)
Theorem drawer_ends_as_asked action d :
  sideBarVisible (invoke (callback action) d) = wanted action.
Proof. by rewrite invoke_callback. Qed.

Lemma flips_bound (visible : bool) actions :
  (flips visible actions ≤ length actions)%nat.
Proof.
  revert visible. induction actions as [| action actions IH]; intros visible; simpl.
  - lia.
  - specialize (IH (wanted action)). case_bool_decide; lia.
Qed.

(** Over any sequence of actions the drawer ends as the last action asks,
    and the component makes one state update for every change of
    visibility and none besides: never more updates than actions, and no
    update that leaves the state as it was. *)
Theorem drawer_updates_are_flips actions d :
  sideBarVisible (perform_all actions d)
  = default (sideBarVisible d) (wanted <$> last actions)
  ∧ updates (perform_all actions d) = updates d + flips (sideBarVisible d) actions
  ∧ (updates (perform_all actions d) ≤ updates d + length actions)%nat.
Proof.
  assert (sideBarVisible (perform_all actions d)
          = default (sideBarVisible d) (wanted <$> last actions)
          ∧ updates (perform_all actions d)
            = updates d + flips (sideBarVisible d) actions) as [Hvis Hupd].
  { revert d. induction actions as [| action actions IH]; intros d.
    - simpl. split; [done | lia].
    - unfold perform_all. cbn [foldl]. fold (perform_all actions (invoke (callback action) d)).
      destruct (IH (invoke (callback action) d)) as [Hvis Hupd].
      rewrite Hvis, Hupd, invoke_callback. cbn [sideBarVisible updates flips].
      split; [| lia].
      rewrite last_cons. by destruct (last actions). }
  repeat split; [done | done |].
  rewrite Hupd. pose proof (flips_bound (sideBarVisible d) actions). lia.
Qed.

End DrawerSequences.

(** ** What the layout renders *)

Section Render.

Implicit Types (config : Config) (env : option string).
Implicit Types (onMobile darkMode visible : bool).

(** No two items of a navigation list lead to the same path, whatever the
    debug flag, and the bottom bar's items open the side bar's list. *)
Theorem navigation_paths_distinct env :
  NoDup (path <$> SIDE_BAR_ITEMS (evaluate env))
  ∧ NoDup (path <$> BOTTOM_BAR_ITEMS (evaluate env))
  ∧ BOTTOM_BAR_ITEMS (evaluate env) `prefix_of` SIDE_BAR_ITEMS (evaluate env).
Proof.
  unfold evaluate. case_bool_decide; simpl; repeat split.
  - compute_done.
  - compute_done.
  - by exists [DEBUG_TOOLS].
  - compute_done.
  - compute_done.
  - by exists [].
Qed.

(** On a mobile viewport the bottom bar is rendered whatever the desktop
    setting says; it is left out exactly on a desktop viewport with the
    setting off; and when rendered it shows the three fixed items, the
    debug flag having no part in it. *)
Theorem bottom_bar_rendered config env onMobile darkMode visible :
  bottomBar (PublicLayout config (evaluate env) true darkMode visible)
  = Some [LOG_IN; SIGN_UP; ABOUT]
  ∧ (bottomBar (PublicLayout config (evaluate env) onMobile darkMode visible) = None
     ↔ onMobile = false ∧ BOTTOM_BAR_DESKTOP_VISIBLE config = false)
  ∧ (∀ items,
       bottomBar (PublicLayout config (evaluate env) onMobile darkMode visible)
       = Some items → items = [LOG_IN; SIGN_UP; ABOUT]).
Proof.
  split; [reflexivity |]. unfold PublicLayout. simpl.
  destruct onMobile, (BOTTOM_BAR_DESKTOP_VISIBLE config); simpl.
  all: split; [split | intros items Hitems; congruence].
  all: try discriminate; try done.
  all: intros [Hmobile Hdesktop]; congruence.
Qed.

(** In every render exactly one of the two drawer handlers makes a state
    update: the header button when the drawer is shown closed, the close
    action when it is shown open. *)
Lemma render_drawer_handlers config (items : NavItems) onMobile darkMode visible :
  let view := PublicLayout config items onMobile darkMode visible in
  sideBarOpen view = visible
  ∧ startClick view = (if sideBarOpen view then None else Some true)
  ∧ sideBarClose view = (if sideBarOpen view then Some false else None).
Proof. by destruct visible. Qed.

(** The dark-mode button never shows an icon that disagrees with its
    label: the day icon goes with "Switch to Light mode", the night icon
    with "Switch to Dark mode", and the first pair shows exactly in dark
    mode. *)
Theorem dark_mode_button config (items : NavItems) onMobile darkMode visible :
  let view := PublicLayout config items onMobile darkMode visible in
  (endIcon view = "day" ↔ darkMode = true)
  ∧ (endTitle view = "Switch to Light mode" ↔ darkMode = true)
  ∧ (endIcon view = "night" ↔ endTitle view = "Switch to Dark mode").
Proof. destruct darkMode; simpl; repeat split; done. Qed.

End Render.

(** ** The accessors on the states of a hook *)

Section HookStates.

Variable validate : JsVal → JsVal → JsVal.

(** validate.js returns nothing, or an object of non-empty message lists. *)
Hypothesis validate_lists :
  ∀ attributes schema,
    validate attributes schema = JUndefined
    ∨ well_formed_errors (validate attributes schema).

Implicit Types (st : FormState) (f : string) (ops : list Op) (schema : JsVal).

Lemma well_formed_empty : well_formed_errors (JObj ∅).
Proof. exists ∅. split; [done |]. intros f e He. by rewrite lookup_empty in He. Qed.

(** On a state whose error entries are non-empty lists the accessors do
    what the specification says of them. *)
Lemma accessors_as_documented st f :
  plain_object (touched st) = true → well_formed_errors (errors st) →
  f ∉ object_prototype_keys →
  formHasError st f = Ok (touched_with_non_empty_entry st f)
  ∧ formGetError st f = Ok (documented_error st f).
Proof.
  intros Ht (props & Herr & Hlists) Hf.
  assert (plain_object (errors st) = true) as He by (by rewrite Herr).
  assert (entry_set (errors st) f = non_empty_error_entry st f) as Hsame.
  { unfold entry_set, non_empty_error_entry, entry. rewrite Herr. simpl.
    destruct (props !! f) as [e |] eqn:Hentry; [| done].
    by destruct (Hlists f e Hentry) as (message & rest & ->). }
  rewrite formGetError_plain, formHasError_plain by done.
  rewrite Hsame. fold (touched_with_non_empty_entry st f).
  split; [done |]. unfold documented_error.
  destruct (touched_with_non_empty_entry st f) eqn:Hhas; [| done].
  unfold touched_with_non_empty_entry in Hhas.
  apply andb_true_iff in Hhas as [_ Hentry].
  unfold non_empty_error_entry in Hentry.
  destruct (entry (errors st) f) as [[| | | | | |[| message rest]| |]|];
    try discriminate Hentry.
  reflexivity.
Qed.

Lemma hook_state_kept schema st op :
  plain_object (touched st) = true ∧ well_formed_errors (errors st) →
  plain_object (touched (apply_op validate schema st op)) = true
  ∧ well_formed_errors (errors (apply_op validate schema st op)).
Proof.
  intros [Ht He]. destruct op as [event |]; simpl; [done |].
  split; [exact Ht |]. unfold js_or.
  destruct (validate_lists (values st) schema) as [-> | Hwf].
  - apply well_formed_empty.
  - destruct Hwf as (props & Hprops & Hlists). rewrite Hprops. simpl.
    exists props. done.
Qed.

(** Every state a hook reaches from its mount by change events and
    revalidations has such entries, so there the accessors are as
    specified. *)
Lemma accessors_on_hook_states params h0 ops f :
  mount params = Ok h0 → f ∉ object_prototype_keys →
  let st := run validate (validationSchema params) ops (state h0) in
  formHasError st f = Ok (touched_with_non_empty_entry st f)
  ∧ formGetError st f = Ok (documented_error st f).
Proof.
  intros Hmount Hf st.
  assert (plain_object (touched st) = true ∧ well_formed_errors (errors st))
    as [Ht He]; [| by apply accessors_as_documented].
  subst st.
  assert (plain_object (touched (state h0)) = true
          ∧ well_formed_errors (errors (state h0))) as Hinit.
  { unfold mount in Hmount.
    destruct (useAppForm_render params None)
      as [(e & He & _) | (r & r0 & Hr & Hr0 & _ & Htouched & Herrors & _)];
      [rewrite He in Hmount; discriminate Hmount |].
    rewrite Hr in Hmount. simpl in Hmount. injection Hmount as <-. simpl.
    assert (r0 = r) as -> by congruence.
    rewrite Htouched, Herrors. split; [done | apply well_formed_empty]. }
  revert Hinit. generalize (state h0). unfold run.
  induction ops as [| op ops IH]; intros st0 Hst0; [exact Hst0 |].
  simpl. apply IH. by apply hook_state_kept.
Qed.

End HookStates.
